(** * Prysm: state retrieval (stategen getters) and the SSZ network encoder

    A shallow embedding of
      - beacon-chain/state/stategen/getter.go
      - beacon-chain/p2p/encoder/ssz.go
    and the properties of the retrieval contract stated over them.

    Conventions.  A Go [uint64] is a [Z] (the getters only compare slots, the
    encoder only compares and converts lengths; the one narrowing conversion
    is written out).  A byte is a [Z] in [0, 255], a byte string a [list Z].
    A Go pair [(v, err)] is a [result]; a pointer that may be [nil] is an
    [option].  Methods that can touch the receiver return the receiver next
    to their result.  [context.Context] only carries tracing spans here and
    is dropped. *)

From Stdlib Require Import ZArith List Lia Bool.
From stdpp Require Import base option list gmap strings.

Local Open Scope Z_scope.

(** ** Common vocabulary *)

Abbreviation byte := Z (only parsing).
Abbreviation bytes := (list Z) (only parsing).
Abbreviation uint64 := Z (only parsing).

(** [[32]byte]: block roots. *)
Abbreviation Bytes32 := (list Z) (only parsing).

(** Operations of the persistent store that report an [error] in Go. *)
Inductive DBOp := OpState | OpStateSummary | OpBlock | OpSaveStateSummary.

#[global] Instance DBOp_eq_dec : EqDecision DBOp.
Proof. solve_decision. Defined.

(** Go [error] values that occur in the two packages.  [Wrap] is
    [errors.Wrap] of github.com/pkg/errors, [Cause] its inverse. *)
Inductive error :=
| errUnknownStateSummary
| errStoreFailure (op : DBOp)
| errNilDereference
| errEOF
| errSizeOfEncoded (size maxSize : Z)
| errSizeOfDecoded (msgLen maxSize : Z)
| errMaxSizeExceedsChunk (maxSize chunk : Z)
| errOther (tag : string)
| Wrap (cause : error) (msg : string).

Fixpoint Cause (e : error) : error :=
  match e with
  | Wrap c _ => Cause c
  | _ => e
  end.

Inductive result (A : Type) :=
| Ok (a : A)
| Err (e : error).
Arguments Ok {A} a.
Arguments Err {A} e.

(** ** Protobuf messages read by the getters *)

Module StateSummary.
(** [pb.StateSummary]. *)
Record t := Build { Slot : uint64; Root : bytes }.
End StateSummary.

Module BeaconBlock.
(** [ethpb.BeaconBlock], the fields a getter can see. *)
Record t := Build { Slot : uint64; ParentRoot : bytes }.
End BeaconBlock.

Module SignedBeaconBlock.
Record t := Build { Block : BeaconBlock.t; Signature : bytes }.
End SignedBeaconBlock.

(** ** Collaborators of the getters *)

Module DB.
(** Modelled from the spec: the persistent store ([s.beaconDB], an interface
    whose implementation is outside this package).  Spec section 6 gives it
    as a durable keyed store of states, state summaries and blocks with the
    operations below; a summary is saved under its own root.  The operations
    that return an [error] in Go fail when listed in [failing]. *)
Record t (BeaconState : Type) := Build {
  states : gmap Bytes32 BeaconState;
  summaries : gmap Bytes32 StateSummary.t;
  blocks : gmap Bytes32 SignedBeaconBlock.t;
  failing : list DBOp
}.
Arguments Build {BeaconState} _ _ _ _.
Arguments states {BeaconState} _.
Arguments summaries {BeaconState} _.
Arguments blocks {BeaconState} _.
Arguments failing {BeaconState} _.

Section ops.
Context {BeaconState : Type}.
Implicit Types (db : t BeaconState) (blockRoot : Bytes32).

Definition fails db (op : DBOp) : bool := bool_decide (op ∈ failing db).

(** Modelled from the spec: [getState(root)]. *)
Definition State db blockRoot : result (option BeaconState) :=
  if fails db OpState then Err (errStoreFailure OpState)
  else Ok (states db !! blockRoot).

(** Modelled from the spec: [getStateSummary(root)]; [nil] when absent. *)
Definition StateSummary db blockRoot : result (option StateSummary.t) :=
  if fails db OpStateSummary then Err (errStoreFailure OpStateSummary)
  else Ok (summaries db !! blockRoot).

(** Modelled from the spec: [hasStateSummary(root)]. *)
Definition HasStateSummary db blockRoot : bool :=
  bool_decide (is_Some (summaries db !! blockRoot)).

(** Modelled from the spec: [getBlock(root)]; [nil] when absent. *)
Definition Block db blockRoot : result (option SignedBeaconBlock.t) :=
  if fails db OpBlock then Err (errStoreFailure OpBlock)
  else Ok (blocks db !! blockRoot).

(** Modelled from the spec: [hasBlock(root)]. *)
Definition HasBlock db blockRoot : bool :=
  bool_decide (is_Some (blocks db !! blockRoot)).

(** Modelled from the spec: [saveStateSummary(summary)]. *)
Definition SaveStateSummary db (summary : StateSummary.t)
    : result (t BeaconState) :=
  if fails db OpSaveStateSummary then Err (errStoreFailure OpSaveStateSummary)
  else Ok (Build (states db)
                 (<[StateSummary.Root summary := summary]> (summaries db))
                 (blocks db) (failing db)).
End ops.
End DB.

Module Cache.
(** Modelled from the spec: the Summary Cache ([s.stateSummaryCache]), an
    in-memory mapping from a root to its summary (spec section 2). *)
Abbreviation t := (gmap Bytes32 StateSummary.t) (only parsing).

(** Modelled from the spec: presence of a summary in the Summary Cache. *)
Definition Has (c : t) (blockRoot : Bytes32) : bool :=
  bool_decide (is_Some (c !! blockRoot)).

(** Modelled from the spec: the cached summary, [nil] when absent. *)
Definition Get (c : t) (blockRoot : Bytes32) : option StateSummary.t :=
  c !! blockRoot.
End Cache.

(** [params.BeaconConfig().ZeroHash]: thirty-two zero bytes. *)
Definition ZeroHash : Bytes32 := replicate 32 0.


(** ** beacon-chain/state/stategen/getter.go *)

Module Stategen.

(** [splitSlotAndRoot], the value behind [s.splitInfo]. *)
Module splitSlotAndRoot.
Record t := Build { slot : uint64; root : Bytes32 }.
End splitSlotAndRoot.

(** The receiver [*State]: the fields [getter.go] reads, and [others] for the
    remaining fields of the service (hot state cache, archive bookkeeping),
    which only the loaders use. *)
Record State (BeaconState Other : Type) := Build_State {
  beaconDB : DB.t BeaconState;
  stateSummaryCache : Cache.t;
  splitInfo : splitSlotAndRoot.t;
  others : Other
}.
Arguments Build_State {BeaconState Other} _ _ _ _.
Arguments beaconDB {BeaconState Other} _.
Arguments stateSummaryCache {BeaconState Other} _.
Arguments splitInfo {BeaconState Other} _.
Arguments others {BeaconState Other} _.

Definition with_beaconDB {BeaconState Other} (s : State BeaconState Other)
    (db : DB.t BeaconState) : State BeaconState Other :=
  Build_State db (stateSummaryCache s) (splitInfo s) (others s).

(** The four loaders live in other files of the package (hot.go, cold.go); the
    getters only hand the request over to them, so they are an interface
    here.  A loader may update the receiver. *)
Class Loaders (BeaconState Other : Type) := {
  loadColdStateByRoot :
    State BeaconState Other -> Bytes32 ->
    State BeaconState Other * result (option BeaconState);
  loadHotStateByRoot :
    State BeaconState Other -> Bytes32 ->
    State BeaconState Other * result (option BeaconState);
  loadColdStateBySlot :
    State BeaconState Other -> uint64 ->
    State BeaconState Other * result (option BeaconState);
  loadHotStateBySlot :
    State BeaconState Other -> uint64 ->
    State BeaconState Other * result (option BeaconState)
}.

Section getter.
Context {BeaconState Other : Type} `{!Loaders BeaconState Other}.

Implicit Types (s : State BeaconState Other) (blockRoot : Bytes32).

(** This recovers state summary object of a given block root by using the
    saved block in DB.  [b.Block.Slot] on a [nil] block is a run-time panic,
    recorded as [errNilDereference]. *)
Definition recoverStateSummary s blockRoot
    : State BeaconState Other * result StateSummary.t :=
  if DB.HasBlock (beaconDB s) blockRoot then
    match DB.Block (beaconDB s) blockRoot with
    | Err err => (s, Err err)
    | Ok None => (s, Err errNilDereference)
    | Ok (Some b) =>
        let summary :=
          StateSummary.Build
            (BeaconBlock.Slot (SignedBeaconBlock.Block b)) blockRoot in
        match DB.SaveStateSummary (beaconDB s) summary with
        | Err err => (s, Err err)
        | Ok db' => (with_beaconDB s db', Ok summary)
        end
    end
  else (s, Err errUnknownStateSummary).

(** This returns the state summary object of a given block root, it first
    checks the cache then checks the DB. *)
Definition stateSummary s blockRoot
    : State BeaconState Other * result StateSummary.t :=
  let fetched :=
    if Cache.Has (stateSummaryCache s) blockRoot
    then Ok (Cache.Get (stateSummaryCache s) blockRoot)
    else DB.StateSummary (beaconDB s) blockRoot in
  match fetched with
  | Err err => (s, Err err)
  | Ok None => recoverStateSummary s blockRoot
  | Ok (Some summary) => (s, Ok summary)
  end.

(** StateByRoot retrieves the state from DB using input block root. *)
Definition StateByRoot s blockRoot
    : State BeaconState Other * result (option BeaconState) :=
  if decide (blockRoot = ZeroHash) then
    (s, DB.State (beaconDB s) blockRoot)
  else
    match stateSummary s blockRoot with
    | (s', Err err) => (s', Err (Wrap err "could not get state summary"))
    | (s', Ok summary) =>
        if StateSummary.Slot summary <? splitSlotAndRoot.slot (splitInfo s')
        then loadColdStateByRoot s' blockRoot
        else loadHotStateByRoot s' blockRoot
    end.

(** StateBySlot retrieves the state from DB using input slot. *)
Definition StateBySlot s (slot : uint64)
    : State BeaconState Other * result (option BeaconState) :=
  if slot <? splitSlotAndRoot.slot (splitInfo s)
  then loadColdStateBySlot s slot
  else loadHotStateBySlot s slot.

(** StateSummaryExists returns true if the corresponding state summary of the
    input block root either exists in the DB or in the cache. *)
Definition StateSummaryExists s blockRoot : State BeaconState Other * bool :=
  (s, DB.HasStateSummary (beaconDB s) blockRoot
      || Cache.Has (stateSummaryCache s) blockRoot).

End getter.
End Stategen.

(** ** beacon-chain/p2p/encoder/ssz.go *)

Module Encoder.

(** [len(b)] as a Go [int]. *)
Definition len (b : bytes) : Z := Z.of_nat (length b).

(** [uint64(x)] with wrap-around, and [int(x)] of a [uint64] on a 64-bit
    platform.  [uint64(len(b))] keeps the value, a length being non-negative
    and below [2 ^ 63], and is written [len b]. *)
Definition to_uint64 (x : Z) : Z := x mod 2 ^ 64.

Definition to_int (x : Z) : Z :=
  let y := to_uint64 x in if y <? 2 ^ 63 then y else y - 2 ^ 64.

(** MaxChunkSize allowed for decoding messages. *)
Definition MaxChunkSize : uint64 := Z.shiftl 1 20.

(** SszNetworkEncoder supports p2p networking encoding using SimpleSerialize
    with snappy compression (if enabled). *)
Record SszNetworkEncoder := { UseSnappyCompression : bool }.

(** [io.Writer]: an in-memory sink that takes every write, as
    [bytes.Buffer] does; its value is all that has been written. *)
Abbreviation Writer := (list Z) (only parsing).

Definition Write (w : Writer) (p : bytes) : Writer * (Z * option error) :=
  (w ++ p, (len p, None)).

(** [io.Reader] over a byte stream: the bytes not yet consumed. *)
Abbreviation Reader := (list Z) (only parsing).

(** [Read] of a [bytes.Buffer]: into a buffer of length [n] it stores the
    next [n] bytes, or all that is left when that is less, and reports
    [io.EOF] when nothing is left. *)
Definition Buffer_Read (r : Reader) (n : Z) : Reader * result bytes :=
  if n <=? 0 then (r, Ok [])
  else match r with
       | [] => (r, Err errEOF)
       | _ => (drop (Z.to_nat n) r, Ok (take (Z.to_nat n) r))
       end.

(** The byte buffers this package obtains with [make([]byte, n)]: their
    lengths, newest first. *)
Abbreviation Heap := (list Z) (only parsing).

Definition make (h : Heap) (n : Z) : Heap := n :: h.

(** [proto.EncodeVarint] (github.com/gogo/protobuf): base-128, least
    significant group first, at most ten bytes for a [uint64]. *)
Fixpoint EncodeVarint_from (more : nat) (x : Z) : bytes :=
  match more with
  | O => [Z.land x 255]
  | S k =>
      if 127 <? x
      then Z.lor 128 (Z.land x 127) :: EncodeVarint_from k (Z.shiftr x 7)
      else [x]
  end.

Definition EncodeVarint (x : uint64) : bytes := EncodeVarint_from 9 x.

(** The libraries and the package-local helper the encoder calls:
    go-ssz ([Marshal], [Unmarshal]), golang/snappy (block format [Encode],
    [Decode], [MaxEncodedLen]; stream format through a buffered writer and a
    reader), and [readVarint] of varint.go.
    - [snappy_stream b] is what [snappy.NewBufferedWriter(w)] puts on [w] for
      one [Write(b)] followed by [Close()];
    - [snappy_Read r n] is the first [Read] of [snappy.NewReader(r)] into a
      buffer of length [n]: what is left of [r], and the bytes stored.
    The reader handed to the decoder is the caller's, an [io.Reader] of any
    kind:
    - [Read r n] is its [r.Read(buf)] with [len(buf) = n]: what is left of
      [r], and [buf[:numOfBytes]].  It may store fewer bytes than the
      stream still holds. *)
Class Codec (Msg : Type) := {
  Read : Reader -> Z -> Reader * result bytes;
  ssz_Marshal : Msg -> result bytes;
  ssz_Unmarshal : bytes -> result Msg;
  snappy_Encode : bytes -> bytes;
  snappy_Decode : bytes -> result bytes;
  snappy_MaxEncodedLen : Z -> Z;
  snappy_stream : bytes -> bytes;
  snappy_Read : Reader -> Z -> Reader * result bytes;
  readVarint : Reader -> Reader * result uint64
}.

Section ssz.
Context {Msg : Type} `{!Codec Msg}.

Implicit Types (e : SszNetworkEncoder) (w : Writer) (r : Reader) (h : Heap)
  (b : bytes) (msg : option Msg).

Definition doEncode (m : Msg) : result bytes := ssz_Marshal m.

(** Writes a bytes value through a snappy buffered writer.  The count is the
    one of [bufWriter.Write(b)]; the deferred [Close] flushes to [w]. *)
Definition writeSnappyBuffer w b : Writer * (Z * option error) :=
  let '(w', _) := Write w (snappy_stream b) in
  (w', (len b, None)).

(** Encode the proto message to the io.Writer. *)
Definition Encode e w msg : Writer * (Z * option error) :=
  match msg with
  | None => (w, (0, None))
  | Some m =>
      match doEncode m with
      | Err err => (w, (0, Some err))
      | Ok b =>
          if UseSnappyCompression e then writeSnappyBuffer w b
          else Write w b
      end
  end.

(** EncodeGossip the proto gossip message to the io.Writer. *)
Definition EncodeGossip e w msg : Writer * (Z * option error) :=
  match msg with
  | None => (w, (0, None))
  | Some m =>
      match doEncode m with
      | Err err => (w, (0, Some err))
      | Ok b =>
          let b := if UseSnappyCompression e then snappy_Encode b else b in
          Write w b
      end
  end.

(** EncodeWithLength the proto message to the io.Writer. This encoding
    prefixes the byte slice with a protobuf varint to indicate the size of
    the message. *)
Definition EncodeWithLength e w msg : Writer * (Z * option error) :=
  match msg with
  | None => (w, (0, None))
  | Some m =>
      match doEncode m with
      | Err err => (w, (0, Some err))
      | Ok b =>
          match Write w (EncodeVarint (len b)) with
          | (w1, (_, Some err)) => (w1, (0, Some err))
          | (w1, (_, None)) =>
              if UseSnappyCompression e then writeSnappyBuffer w1 b
              else Write w1 b
          end
      end
  end.

(** EncodeWithMaxLength: as EncodeWithLength, after checking that the encoded
    message isn't larger than the provided max limit. *)
Definition EncodeWithMaxLength e w msg (maxSize : uint64)
    : Writer * (Z * option error) :=
  match msg with
  | None => (w, (0, None))
  | Some m =>
      match doEncode m with
      | Err err => (w, (0, Some err))
      | Ok b =>
          if maxSize <? len b
          then (w, (0, Some (errSizeOfEncoded (len b) maxSize)))
          else
            match Write w (EncodeVarint (len b)) with
            | (w1, (_, Some err)) => (w1, (0, Some err))
            | (w1, (_, None)) =>
                if UseSnappyCompression e then writeSnappyBuffer w1 b
                else Write w1 b
            end
      end
  end.

Definition doDecode b : result Msg := ssz_Unmarshal b.

(** Decode the bytes to the protobuf message provided. *)
Definition Decode e h b : Heap * result Msg :=
  if UseSnappyCompression e then
    let h' := make h (len b) in
    match snappy_Read b (len b) with
    | (_, Err err) => (h', Err err)
    | (_, Ok newObj) => (h', doDecode newObj)
    end
  else (h, doDecode b).

(** DecodeGossip decodes the bytes to the protobuf gossip message provided. *)
Definition DecodeGossip e b : result Msg :=
  if UseSnappyCompression e then
    match snappy_Decode b with
    | Err err => Err err
    | Ok b' => doDecode b'
    end
  else doDecode b.

(** ProtocolSuffix returns the appropriate suffix for protocol IDs. *)
Definition ProtocolSuffix e : string :=
  if UseSnappyCompression e then "/ssz_snappy"%string else "/ssz"%string.

(** MaxLength specifies the maximum possible length of an encoded chunk of
    data. *)
Definition MaxLength e (length : Z) : Z :=
  if UseSnappyCompression e then snappy_MaxEncodedLen length else length.

(** DecodeWithMaxLength the bytes from io.Reader to the protobuf message
    provided. This checks that the decoded message isn't larger than the
    provided max limit. *)
Definition DecodeWithMaxLength e r h (maxSize : uint64)
    : (Reader * Heap) * result Msg :=
  if MaxChunkSize <? maxSize
  then ((r, h), Err (errMaxSizeExceedsChunk maxSize MaxChunkSize))
  else
    match readVarint r with
    | (r1, Err err) => ((r1, h), Err err)
    | (r1, Ok msgLen) =>
        (* with compression, [snappy.NewReader] wraps [r1] here; it reads
           nothing before its first [Read] *)
        if maxSize <? msgLen
        then ((r1, h), Err (errSizeOfDecoded msgLen maxSize))
        else
          let n := MaxLength e (to_int msgLen) in
          let h' := make h n in
          match (if UseSnappyCompression e
                 then snappy_Read r1 n else Read r1 n) with
          | (r2, Err err) => ((r2, h'), Err err)
          | (r2, Ok data) => ((r2, h'), doDecode data)
          end
    end.

(** DecodeWithLength the bytes from io.Reader to the protobuf message
    provided. *)
Definition DecodeWithLength e r h : (Reader * Heap) * result Msg :=
  DecodeWithMaxLength e r h MaxChunkSize.

End ssz.
End Encoder.

(** ** Reference instances of the encoder's libraries

    The properties below hold for every [Codec]; the instances here give the
    concrete runs.  [SnappyRef] follows the snappy format descriptions
    (format_description.txt for blocks, framing_format.txt for streams) and
    the chunking of golang/snappy's writer and reader; its block compressor
    only looks for runs of one repeated byte. *)

Module SnappyRef.
Import Encoder.

Definition u32 (x : Z) : Z := x mod 2 ^ 32.

Definition le_bytes (n : nat) (x : Z) : bytes :=
  map (fun i => Z.land (Z.shiftr x (8 * Z.of_nat i)) 255) (seq 0 n).

Fixpoint le_value (l : bytes) : Z :=
  match l with
  | [] => 0
  | x :: l' => x + 256 * le_value l'
  end.

(** CRC-32C (Castagnoli), bit by bit, and the masking of the framing
    format. *)
Definition crc32c_bit (c : Z) : Z :=
  if Z.testbit c 0 then Z.lxor (Z.shiftr c 1) 0x82F63B78 else Z.shiftr c 1.

Definition crc32c_byte (c x : Z) : Z :=
  Nat.iter 8 crc32c_bit (Z.lxor c x).

Definition crc32c (b : bytes) : Z :=
  Z.lxor (fold_left crc32c_byte b 0xFFFFFFFF) 0xFFFFFFFF.

Definition crc (b : bytes) : Z :=
  let c := crc32c b in
  u32 (Z.lor (Z.shiftr c 15) (u32 (Z.shiftl c 17)) + 0xa282ead8).

(** Block format: elements. *)
Definition emitLiteral (lit : bytes) : bytes :=
  let n := len lit - 1 in
  (if n <? 60 then [Z.shiftl n 2]
   else if n <? 256 then [Z.shiftl 60 2; n]
   else [Z.shiftl 61 2; Z.land n 255; Z.shiftr n 8]) ++ lit.

Definition copy2 (offset length : Z) : bytes :=
  [Z.lor (Z.shiftl (length - 1) 2) 2; Z.land offset 255; Z.shiftr offset 8].

Definition emitCopy_last (offset length : Z) : bytes :=
  let '(first, length) :=
    if 64 <? length then (copy2 offset 60, length - 60)
    else ([], length) in
  first ++
  (if (12 <=? length) || (2048 <=? offset) then copy2 offset length
   else [Z.lor (Z.lor (Z.shiftl (Z.shiftr offset 8) 5)
                      (Z.shiftl (length - 4) 2)) 1;
         Z.land offset 255]).

Fixpoint emitCopy_from (more : nat) (offset length : Z) : bytes :=
  match more with
  | S k =>
      if 68 <=? length
      then copy2 offset 64 ++ emitCopy_from k offset (length - 64)
      else emitCopy_last offset length
  | O => emitCopy_last offset length
  end.

Definition emitCopy (offset length : Z) : bytes :=
  emitCopy_from (Z.to_nat (length / 64)) offset length.

(** The run of bytes equal to [x] at the head of [l], and what follows. *)
Fixpoint span_eq (x : Z) (l : bytes) : Z * bytes :=
  match l with
  | y :: l' =>
      if x =? y then let '(k, rest) := span_eq x l' in (k + 1, rest)
      else (0, l)
  | [] => (0, [])
  end.

Definition flushLiteral (lit : bytes) : bytes :=
  match lit with [] => [] | _ => emitLiteral lit end.

(** Run matcher: a byte followed by at least four copies of itself becomes a
    literal byte and a copy at offset 1. *)
Fixpoint encodeBlock_from (more : nat) (lit src : bytes) : bytes :=
  match more, src with
  | S k, x :: rest =>
      let '(n, rest') := span_eq x rest in
      if 4 <=? n
      then flushLiteral (lit ++ [x]) ++ emitCopy 1 n
           ++ encodeBlock_from k [] rest'
      else encodeBlock_from k (lit ++ [x]) rest
  | _, _ => flushLiteral (lit ++ src)
  end.

Definition maxBlockSize : Z := 65536.
Definition minNonLiteralBlockSize : Z := 17.

(** Split into pieces of at most [maxBlockSize] bytes. *)
Fixpoint blocks_from (more : nat) (p : bytes) : list bytes :=
  match more, p with
  | _, [] => []
  | O, _ => [p]
  | S k, _ =>
      take (Z.to_nat maxBlockSize) p
      :: blocks_from k (drop (Z.to_nat maxBlockSize) p)
  end.

Definition blocks (p : bytes) : list bytes :=
  blocks_from (Z.to_nat (len p / maxBlockSize)) p.

(** [snappy.Encode]: one block. *)
Definition Encode (src : bytes) : bytes :=
  EncodeVarint (len src) ++
  concat (map (fun p =>
                 if len p <? minNonLiteralBlockSize then emitLiteral p
                 else encodeBlock_from (length p) [] p)
              (blocks src)).

Definition ErrCorrupt : error := errOther "snappy: corrupt input".
Definition ErrUnsupported : error := errOther "snappy: unsupported input".

(** Unsigned varint at the head of a block: value and rest. *)
Fixpoint uvarint_from (more : nat) (shift : Z) (l : bytes) : option (Z * bytes) :=
  match more, l with
  | S k, x :: l' =>
      if x <? 128 then Some (Z.shiftl x shift, l')
      else match uvarint_from k (shift + 7) l' with
           | Some (v, rest) => Some (Z.shiftl (Z.land x 127) shift + v, rest)
           | None => None
           end
  | _, _ => None
  end.

Definition uvarint (l : bytes) : option (Z * bytes) := uvarint_from 10 0 l.

(** Append [n] bytes, each copied from [offset] positions back. *)
Fixpoint copy_back (n : nat) (offset : nat) (out : bytes) : bytes :=
  match n with
  | O => out
  | S k =>
      copy_back k offset
        (out ++ [nth (length out - offset)%nat out 0])
  end.

Definition do_copy (out : bytes) (offset length : Z) : option bytes :=
  if (offset <=? 0) || (len out <? offset) then None
  else Some (copy_back (Z.to_nat length) (Z.to_nat offset) out).

Fixpoint decode_ops (more : nat) (out src : bytes) : option bytes :=
  match src with
  | [] => Some out
  | tag :: rest =>
      match more with
      | O => None
      | S k =>
          let x := Z.shiftr tag 2 in
          let kind := Z.land tag 3 in
          if kind =? 0 then
            let extra := Z.to_nat (if x <? 60 then 0 else x - 59) in
            if (length rest <? extra)%nat then None
            else
              let n := if x <? 60 then x + 1
                       else le_value (take extra rest) + 1 in
              let lit := drop extra rest in
              if len lit <? n then None
              else decode_ops k (out ++ take (Z.to_nat n) lit)
                             (drop (Z.to_nat n) lit)
          else
            let width := if kind =? 1 then 1%nat
                         else if kind =? 2 then 2%nat else 4%nat in
            if (length rest <? width)%nat then None
            else
              let low := le_value (take width rest) in
              let offset := if kind =? 1
                            then Z.lor (Z.shiftl (Z.shiftr tag 5) 8) low
                            else low in
              let length := if kind =? 1 then 4 + Z.land x 7 else 1 + x in
              match do_copy out offset length with
              | None => None
              | Some out' => decode_ops k out' (drop width rest)
              end
      end
  end.

(** [snappy.Decode]: one block. *)
Definition Decode (src : bytes) : result bytes :=
  match uvarint src with
  | None => Err ErrCorrupt
  | Some (n, body) =>
      match decode_ops (length body) [] body with
      | Some out => if len out =? n then Ok out else Err ErrCorrupt
      | None => Err ErrCorrupt
      end
  end.

(** [snappy.MaxEncodedLen]. *)
Definition MaxEncodedLen (srcLen : Z) : Z :=
  let n := to_uint64 srcLen in
  if 0xffffffff <? n then -1
  else let n := 32 + n + n / 6 in
       if 0xffffffff <? n then -1 else n.

Definition magicChunk : bytes :=
  [0xff; 0x06; 0x00; 0x00; 0x73; 0x4e; 0x61; 0x50; 0x70; 0x59].
Definition magicBody : bytes := drop 4 magicChunk.

(** One data chunk of the stream: compressed when that saves an eighth. *)
Definition chunk (uncompressed : bytes) : bytes :=
  let compressed := Encode uncompressed in
  let stored := len uncompressed - len uncompressed / 8 <=? len compressed in
  let body := if stored then uncompressed else compressed in
  [if stored then 1 else 0] ++ le_bytes 3 (4 + len body)
    ++ le_bytes 4 (crc uncompressed) ++ body.

(** The stream a buffered writer emits for one [Write(p)] and [Close()]. *)
Definition stream (p : bytes) : bytes :=
  match p with
  | [] => []
  | _ => magicChunk ++ concat (map chunk (blocks p))
  end.

(** First [Read] of a fresh stream reader into a buffer of length [n]. *)
Fixpoint Read_from (more : nat) (readHeader : bool) (r : Reader) (n : Z)
    : Reader * result bytes :=
  match r with
  | [] => (r, Err errEOF)
  | chunkType :: l0 :: l1 :: l2 :: rest =>
      match more with
      | O => (r, Err ErrCorrupt)
      | S k =>
          let chunkLen := le_value [l0; l1; l2] in
          let body := take (Z.to_nat chunkLen) rest in
          let rest' := drop (Z.to_nat chunkLen) rest in
          let data (decoded : result bytes) :=
            match decoded with
            | Err err => (rest', Err err)
            | Ok d =>
                if maxBlockSize <? len d then (rest', Err ErrCorrupt)
                else if negb (crc d =? le_value (take 4 body))
                then (rest', Err ErrCorrupt)
                else match d with
                     | [] => Read_from k true rest' n
                     | _ => (rest', Ok (take (Z.to_nat n) d))
                     end
            end in
          let short := len body <? chunkLen in
          if negb readHeader && negb (chunkType =? 0xff)
          then (rest, Err ErrCorrupt)
          else if 76494 <? chunkLen then (rest, Err ErrUnsupported)
          else if (chunkType =? 0) || (chunkType =? 1) then
            if chunkLen <? 4 then (rest, Err ErrCorrupt)
            else if short then ([], Err ErrCorrupt)
            else data (if chunkType =? 0 then Decode (drop 4 body)
                       else Ok (drop 4 body))
          else if chunkType =? 0xff then
            if negb (chunkLen =? 6) then (rest, Err ErrCorrupt)
            else if short then ([], Err ErrCorrupt)
            else if bool_decide (body = magicBody)
            then Read_from k true rest' n
            else (rest', Err ErrCorrupt)
          else if chunkType <=? 0x7f then (rest, Err ErrUnsupported)
          else if short then ([], Err ErrCorrupt)
          else Read_from k readHeader rest' n
      end
  | _ => ([], Err ErrCorrupt)
  end.

Definition Read (r : Reader) (n : Z) : Reader * result bytes :=
  Read_from (length r) false r n.

End SnappyRef.

Module Ref.
Import Encoder.

(** Modelled from the spec: [readVarint] of varint.go, which is not among the
    sources; spec section 6 frames a payload as a varint byte length followed
    by the payload.  Reads the base-128 groups one byte at a time, at most
    ten of them. *)
Fixpoint readVarint_from (more : nat) (shift : Z) (r : Reader)
    : Reader * result uint64 :=
  match r with
  | [] => (r, Err errEOF)
  | x :: r' =>
      if x <? 128 then (r', Ok (to_uint64 (Z.shiftl x shift)))
      else
        match more with
        | O => (r', Err (errOther "varint exceeds ten bytes"))
        | S k =>
            match readVarint_from k (shift + 7) r' with
            | (r2, Ok v) =>
                (r2, Ok (to_uint64 (Z.shiftl (Z.land x 127) shift + v)))
            | (r2, Err err) => (r2, Err err)
            end
        end
  end.

Definition readVarint (r : Reader) : Reader * result uint64 :=
  readVarint_from 9 0 r.

(** Messages that are byte lists: SSZ serializes a list of bytes as the
    bytes themselves.  The stream is read from a [bytes.Buffer]. *)
Definition bytes_codec : Codec bytes := {|
  Encoder.Read := Buffer_Read;
  ssz_Marshal := fun m => Ok m;
  ssz_Unmarshal := fun b => Ok b;
  snappy_Encode := SnappyRef.Encode;
  snappy_Decode := SnappyRef.Decode;
  snappy_MaxEncodedLen := SnappyRef.MaxEncodedLen;
  snappy_stream := SnappyRef.stream;
  snappy_Read := SnappyRef.Read;
  Encoder.readVarint := readVarint
|}.

Definition plain : SszNetworkEncoder := {| UseSnappyCompression := false |}.
Definition snappy : SszNetworkEncoder := {| UseSnappyCompression := true |}.

End Ref.

(** ** Concrete services used to run the getters

    States are named by strings, and the loaders are probes: each stores its
    own name in [others] and returns a state named after itself. *)

Module Fixtures.
Import Stategen.

Definition probe (name : string) {A : Type}
    (s : State string (list string)) (_ : A)
    : State string (list string) * result (option string) :=
  (Build_State (beaconDB s) (stateSummaryCache s) (splitInfo s)
     (name :: others s),
   Ok (Some name)).

Definition probes : Loaders string (list string) := {|
  loadColdStateByRoot := probe "loadColdStateByRoot";
  loadHotStateByRoot := probe "loadHotStateByRoot";
  loadColdStateBySlot := probe "loadColdStateBySlot";
  loadHotStateBySlot := probe "loadHotStateBySlot"
|}.

Definition rootA : Bytes32 := replicate 31 0 ++ [1].
Definition rootB : Bytes32 := replicate 31 0 ++ [2].
Definition rootC : Bytes32 := replicate 31 0 ++ [3].
Definition rootD : Bytes32 := replicate 31 0 ++ [4].

Definition blockC : SignedBeaconBlock.t :=
  SignedBeaconBlock.Build (BeaconBlock.Build 42 rootA) [].

(** Split at slot 5.  The cache knows the zero root (slot 0) and [rootA]
    (slot 3); the store knows the genesis state, a summary of [rootB]
    (slot 9) and the block of [rootC] (slot 42); nothing knows [rootD]. *)
Definition service : State string (list string) :=
  Build_State
    (DB.Build {[ ZeroHash := "genesis"%string ]}
              {[ rootB := StateSummary.Build 9 rootB ]}
              {[ rootC := blockC ]}
              [])
    (<[ ZeroHash := StateSummary.Build 0 ZeroHash ]>
       {[ rootA := StateSummary.Build 3 rootA ]})
    (splitSlotAndRoot.Build 5 rootA)
    [].

End Fixtures.

(** ** Further services and codecs used to run the code *)

Module MoreFixtures.
Import Stategen Fixtures.

(** [service] over a store that refuses to save summaries. *)
Definition service_read_only : State string (list string) :=
  Build_State
    (DB.Build (DB.states (beaconDB service)) (DB.summaries (beaconDB service))
              (DB.blocks (beaconDB service)) [OpSaveStateSummary])
    (stateSummaryCache service) (splitInfo service) (others service).

(** [service] with a cache that shadows the stored summary of [rootB]
    (slot 9) by one of slot 2. *)
Definition service_shadowed : State string (list string) :=
  Build_State (beaconDB service)
    (<[ rootB := StateSummary.Build 2 rootB ]> (stateSummaryCache service))
    (splitInfo service) (others service).

(** Byte-list messages of at most four bytes: serialization fails on longer
    ones. *)
Definition limited_codec : Encoder.Codec bytes := {|
  Encoder.Read := Encoder.Buffer_Read;
  Encoder.ssz_Marshal := fun m =>
    if 4 <? Encoder.len m
    then Err (errOther "ssz: list longer than its limit")
    else Ok m;
  Encoder.ssz_Unmarshal := fun b => Ok b;
  Encoder.snappy_Encode := SnappyRef.Encode;
  Encoder.snappy_Decode := SnappyRef.Decode;
  Encoder.snappy_MaxEncodedLen := SnappyRef.MaxEncodedLen;
  Encoder.snappy_stream := SnappyRef.stream;
  Encoder.snappy_Read := SnappyRef.Read;
  Encoder.readVarint := Ref.readVarint
|}.

End MoreFixtures.

(** ** The outcomes of summary resolution *)

Module Resolution.
Import Stategen.

Section outcomes.
Context {BeaconState Other : Type}.
Implicit Types (s : State BeaconState Other) (blockRoot : Bytes32).

(** The ways [stateSummary] can go, read off its branches: the service it
    starts from and the root, the service it leaves and its result. *)
Inductive resolution s blockRoot
  : State BeaconState Other -> result StateSummary.t -> Prop :=
| res_cached summary :
    stateSummaryCache s !! blockRoot = Some summary ->
    resolution s blockRoot s (Ok summary)
| res_stored summary :
    stateSummaryCache s !! blockRoot = None ->
    DB.StateSummary (beaconDB s) blockRoot = Ok (Some summary) ->
    resolution s blockRoot s (Ok summary)
| res_read_failed err :
    stateSummaryCache s !! blockRoot = None ->
    DB.StateSummary (beaconDB s) blockRoot = Err err ->
    resolution s blockRoot s (Err err)
| res_unknown :
    stateSummaryCache s !! blockRoot = None ->
    DB.StateSummary (beaconDB s) blockRoot = Ok None ->
    DB.HasBlock (beaconDB s) blockRoot = false ->
    resolution s blockRoot s (Err errUnknownStateSummary)
| res_recover_failed err :
    stateSummaryCache s !! blockRoot = None ->
    DB.StateSummary (beaconDB s) blockRoot = Ok None ->
    DB.HasBlock (beaconDB s) blockRoot = true ->
    err <> errUnknownStateSummary ->
    resolution s blockRoot s (Err err)
| res_recovered b db' :
    stateSummaryCache s !! blockRoot = None ->
    DB.StateSummary (beaconDB s) blockRoot = Ok None ->
    DB.Block (beaconDB s) blockRoot = Ok (Some b) ->
    DB.SaveStateSummary (beaconDB s)
      (StateSummary.Build (BeaconBlock.Slot (SignedBeaconBlock.Block b))
         blockRoot) = Ok db' ->
    resolution s blockRoot (with_beaconDB s db')
      (Ok (StateSummary.Build (BeaconBlock.Slot (SignedBeaconBlock.Block b))
             blockRoot)).

End outcomes.
End Resolution.

(** * Properties of the getters *)

Module StategenSpec.
Import Stategen.

Section facts.
Context {BeaconState Other : Type} `{!Loaders BeaconState Other}.
Implicit Types (s : State BeaconState Other) (blockRoot : Bytes32).

Lemma Cache_hit (c : gmap Bytes32 StateSummary.t) blockRoot summary :
  c !! blockRoot = Some summary ->
  Cache.Has c blockRoot = true /\ Cache.Get c blockRoot = Some summary.
Proof.
  intros Hc. unfold Cache.Has, Cache.Get. rewrite Hc. split; [|reflexivity].
  apply bool_decide_eq_true. eexists; reflexivity.
Qed.

Lemma Cache_miss (c : gmap Bytes32 StateSummary.t) blockRoot :
  c !! blockRoot = None -> Cache.Has c blockRoot = false.
Proof.
  intros Hc. unfold Cache.Has. rewrite Hc.
  apply bool_decide_eq_false. intros [x Hx]. discriminate.
Qed.

Lemma Block_found (db : DB.t BeaconState) blockRoot b :
  DB.Block db blockRoot = Ok (Some b) -> DB.HasBlock db blockRoot = true.
Proof.
  unfold DB.Block, DB.HasBlock. destruct (DB.fails db OpBlock); [discriminate|].
  intros [= Hb]. rewrite Hb. apply bool_decide_eq_true. eexists; reflexivity.
Qed.

Lemma stateSummary_hit s blockRoot summary :
  stateSummaryCache s !! blockRoot = Some summary ->
  stateSummary s blockRoot = (s, Ok summary).
Proof.
  intros Hc. destruct (Cache_hit _ _ _ Hc) as [Hhas Hget].
  unfold stateSummary. rewrite Hhas, Hget. reflexivity.
Qed.

Lemma stateSummary_stored s blockRoot summary :
  stateSummaryCache s !! blockRoot = None ->
  DB.StateSummary (beaconDB s) blockRoot = Ok (Some summary) ->
  stateSummary s blockRoot = (s, Ok summary).
Proof.
  intros Hc Hdb. unfold stateSummary.
  rewrite (Cache_miss _ _ Hc), Hdb. reflexivity.
Qed.

Lemma stateSummary_recover s blockRoot :
  stateSummaryCache s !! blockRoot = None ->
  DB.StateSummary (beaconDB s) blockRoot = Ok None ->
  stateSummary s blockRoot = recoverStateSummary s blockRoot.
Proof.
  intros Hc Hdb. unfold stateSummary.
  rewrite (Cache_miss _ _ Hc), Hdb. reflexivity.
Qed.

(** Resolution only ever touches the store. *)
Lemma stateSummary_frame s blockRoot s' res :
  stateSummary s blockRoot = (s', res) ->
  stateSummaryCache s' = stateSummaryCache s /\
  splitInfo s' = splitInfo s /\ others s' = others s.
Proof.
  unfold stateSummary, recoverStateSummary.
  repeat match goal with
         | |- context [match ?x with _ => _ end] => destruct x
         end;
    intros [= <- _]; auto.
Qed.

(** C1, amended.  For every block root other than the zero hash whose
    summary resolves, [StateByRoot] hands the request to
    [loadColdStateByRoot] when the summary's slot is strictly below the split
    slot, and to [loadHotStateByRoot] when it is at or above it; the loader
    receives the service as summary resolution left it. *)
Theorem StateByRoot_tier s blockRoot s' summary :
  blockRoot <> ZeroHash ->
  stateSummary s blockRoot = (s', Ok summary) ->
  (StateSummary.Slot summary < splitSlotAndRoot.slot (splitInfo s) ->
   StateByRoot s blockRoot = loadColdStateByRoot s' blockRoot) /\
  (StateSummary.Slot summary >= splitSlotAndRoot.slot (splitInfo s) ->
   StateByRoot s blockRoot = loadHotStateByRoot s' blockRoot).
Proof.
  intros Hroot Hsum.
  destruct (stateSummary_frame _ _ _ _ Hsum) as (_ & Hsplit & _).
  unfold StateByRoot. destruct (decide (blockRoot = ZeroHash)); [contradiction|].
  rewrite Hsum, Hsplit. split; intros Hslot.
  - apply Z.ltb_lt in Hslot. rewrite Hslot. reflexivity.
  - apply Z.ge_le, Z.ltb_ge in Hslot. rewrite Hslot. reflexivity.
Qed.

(** C2.  For the zero hash, [StateByRoot] returns what the store holds as
    the state of that root and leaves the service as it was; the answer is
    the same whatever the summary cache and the split point are. *)
Theorem StateByRoot_genesis s :
  StateByRoot s ZeroHash = (s, DB.State (beaconDB s) ZeroHash) /\
  forall cache split,
    snd (StateByRoot (Build_State (beaconDB s) cache split (others s)) ZeroHash)
    = DB.State (beaconDB s) ZeroHash.
Proof.
  unfold StateByRoot. destruct (decide (ZeroHash = ZeroHash)); [|contradiction].
  split; [reflexivity|]. intros; reflexivity.
Qed.

(** C3.  Summary resolution falls back in three steps: a summary held by the
    cache is returned; failing that, a summary held by the store; failing
    that, when the store holds the block of the root, the summary made of the
    block's slot and the root is returned, and the service that resolution
    leaves has as its store the one [SaveStateSummary] gave, which holds that
    summary under the root (cache, split point and the rest are as before).
    On that service, resolution of the same root returns the same summary
    and leaves the service as it is; so it does on every service with that
    cache and those stored summaries, whatever its blocks are. *)
Theorem stateSummary_fallback s blockRoot :
  (forall summary,
      stateSummaryCache s !! blockRoot = Some summary ->
      stateSummary s blockRoot = (s, Ok summary)) /\
  (forall summary,
      stateSummaryCache s !! blockRoot = None ->
      DB.StateSummary (beaconDB s) blockRoot = Ok (Some summary) ->
      stateSummary s blockRoot = (s, Ok summary)) /\
  (forall b db',
      stateSummaryCache s !! blockRoot = None ->
      DB.StateSummary (beaconDB s) blockRoot = Ok None ->
      DB.Block (beaconDB s) blockRoot = Ok (Some b) ->
      let summary :=
        StateSummary.Build
          (BeaconBlock.Slot (SignedBeaconBlock.Block b)) blockRoot in
      DB.SaveStateSummary (beaconDB s) summary = Ok db' ->
      let s' := fst (stateSummary s blockRoot) in
      snd (stateSummary s blockRoot) = Ok summary /\
      beaconDB s' = db' /\
      stateSummaryCache s' = stateSummaryCache s /\
      splitInfo s' = splitInfo s /\
      others s' = others s /\
      DB.summaries (beaconDB s) !! blockRoot = None /\
      DB.summaries (beaconDB s') !! blockRoot = Some summary /\
      stateSummary s' blockRoot = (s', Ok summary) /\
      forall s2,
        stateSummaryCache s2 = stateSummaryCache s' ->
        DB.summaries (beaconDB s2) = DB.summaries (beaconDB s') ->
        DB.failing (beaconDB s2) = DB.failing (beaconDB s') ->
        stateSummary s2 blockRoot = (s2, Ok summary)).
Proof.
  split; [|split].
  - intros summary. apply stateSummary_hit.
  - intros summary. apply stateSummary_stored.
  - intros b db' Hc Hdb Hb summary Hsave s'.
    assert (Hrun : stateSummary s blockRoot
                   = (Build_State db' (stateSummaryCache s) (splitInfo s)
                        (others s), Ok summary)).
    { rewrite (stateSummary_recover _ _ Hc Hdb). unfold recoverStateSummary.
      rewrite (Block_found _ _ _ Hb), Hb. fold summary. rewrite Hsave.
      reflexivity. }
    assert (Hnone : DB.summaries (beaconDB s) !! blockRoot = None
                    /\ DB.fails (beaconDB s) OpStateSummary = false).
    { unfold DB.StateSummary in Hdb.
      destruct (DB.fails (beaconDB s) OpStateSummary); [discriminate|].
      injection Hdb as Hdb. auto. }
    destruct Hnone as [Hnone Hreads].
    assert (Hsum : DB.summaries db' !! blockRoot = Some summary
                   /\ DB.failing db' = DB.failing (beaconDB s)).
    { unfold DB.SaveStateSummary in Hsave.
      destruct (DB.fails _ _); [discriminate|].
      injection Hsave as <-. simpl. split; [|reflexivity].
      apply lookup_insert_eq. }
    destruct Hsum as [Hsum Hfail].
    assert (Hnext : forall s2,
               stateSummaryCache s2 = stateSummaryCache s ->
               DB.summaries (beaconDB s2) = DB.summaries db' ->
               DB.failing (beaconDB s2) = DB.failing db' ->
               stateSummary s2 blockRoot = (s2, Ok summary)).
    { intros s2 Hc2 Hs2 Hf2. apply stateSummary_stored.
      - rewrite Hc2. exact Hc.
      - unfold DB.StateSummary, DB.fails in *.
        rewrite Hf2, Hfail, Hs2, Hreads, Hsum. reflexivity. }
    subst s'. rewrite Hrun. simpl.
    repeat (split; [first [reflexivity | assumption]|]).
    split; [apply Hnext; reflexivity|exact Hnext].
Qed.

(** C4.  When the cache holds no summary of the root, the store reports
    none and holds no block of it, resolution fails with
    [errUnknownStateSummary], and [StateByRoot] on such a root other than
    the zero hash returns that failure, wrapped, and no state. *)
Theorem unknown_summary_fails s blockRoot :
  stateSummaryCache s !! blockRoot = None ->
  DB.StateSummary (beaconDB s) blockRoot = Ok None ->
  DB.HasBlock (beaconDB s) blockRoot = false ->
  stateSummary s blockRoot = (s, Err errUnknownStateSummary) /\
  (blockRoot <> ZeroHash ->
   StateByRoot s blockRoot =
     (s, Err (Wrap errUnknownStateSummary "could not get state summary")) /\
   Cause (Wrap errUnknownStateSummary "could not get state summary")
     = errUnknownStateSummary).
Proof.
  intros Hc Hdb Hblock.
  assert (Hres : stateSummary s blockRoot = (s, Err errUnknownStateSummary)).
  { rewrite (stateSummary_recover _ _ Hc Hdb). unfold recoverStateSummary.
    rewrite Hblock. reflexivity. }
  split; [exact Hres|]. intros Hroot. split; [|reflexivity].
  unfold StateByRoot. destruct (decide (blockRoot = ZeroHash)); [contradiction|].
  rewrite Hres. reflexivity.
Qed.

(** C5.  [StateSummaryExists] answers [true] exactly when the cache or the
    store holds a summary of the root, and returns the service unchanged:
    cache and store are as before, no summary is derived or saved. *)
Theorem StateSummaryExists_probe s blockRoot :
  exists found,
    StateSummaryExists s blockRoot = (s, found) /\
    (found = true <->
     is_Some (stateSummaryCache s !! blockRoot) \/
     is_Some (DB.summaries (beaconDB s) !! blockRoot)).
Proof.
  eexists. split; [reflexivity|].
  unfold DB.HasStateSummary, Cache.Has.
  rewrite orb_true_iff, !bool_decide_eq_true. tauto.
Qed.

(** C6.  [StateBySlot] decides on the requested slot alone: strictly below
    the split slot the request goes to [loadColdStateBySlot], otherwise to
    [loadHotStateBySlot], in both cases with the service untouched. *)
Theorem StateBySlot_tier s (slot : uint64) :
  (slot < splitSlotAndRoot.slot (splitInfo s) ->
   StateBySlot s slot = loadColdStateBySlot s slot) /\
  (slot >= splitSlotAndRoot.slot (splitInfo s) ->
   StateBySlot s slot = loadHotStateBySlot s slot).
Proof.
  unfold StateBySlot. split; intros Hslot.
  - apply Z.ltb_lt in Hslot. rewrite Hslot. reflexivity.
  - apply Z.ge_le, Z.ltb_ge in Hslot. rewrite Hslot. reflexivity.
Qed.

End facts.

(** ** The getters at work on a concrete service *)

Import Fixtures.
#[local] Existing Instance probes.

Lemma StateByRoot_tier_witness :
  (rootA <> ZeroHash /\
   stateSummary service rootA = (service, Ok (StateSummary.Build 3 rootA)) /\
   3 < splitSlotAndRoot.slot (splitInfo service) /\
   StateByRoot service rootA = loadColdStateByRoot service rootA) /\
  (rootB <> ZeroHash /\
   stateSummary service rootB = (service, Ok (StateSummary.Build 9 rootB)) /\
   9 >= splitSlotAndRoot.slot (splitInfo service) /\
   StateByRoot service rootB = loadHotStateByRoot service rootB).
Proof.
  assert (HA : rootA <> ZeroHash) by discriminate.
  assert (HB : rootB <> ZeroHash) by discriminate.
  assert (HsA : stateSummary service rootA
                = (service, Ok (StateSummary.Build 3 rootA)))
    by (vm_compute; reflexivity).
  assert (HsB : stateSummary service rootB
                = (service, Ok (StateSummary.Build 9 rootB)))
    by (vm_compute; reflexivity).
  assert (Hlt : 3 < splitSlotAndRoot.slot (splitInfo service))
    by (simpl; lia).
  assert (Hge : 9 >= splitSlotAndRoot.slot (splitInfo service))
    by (simpl; lia).
  split; (split; [assumption | split; [assumption | split; [assumption|]]]).
  - exact (proj1 (StateByRoot_tier service rootA service _ HA HsA) Hlt).
  - exact (proj2 (StateByRoot_tier service rootB service _ HB HsB) Hge).
Defined.

(** The claim C1 as first stated, without the exception of the zero hash,
    fails: the summary of the zero hash resolves to slot 0, below the split
    slot 5, and yet [StateByRoot] answers from the store; the cold loader
    has not run (its name is not in [others]) and would have answered
    otherwise. *)
Lemma StateByRoot_zero_hash_not_cold :
  stateSummary service ZeroHash
    = (service, Ok (StateSummary.Build 0 ZeroHash)) /\
  0 < splitSlotAndRoot.slot (splitInfo service) /\
  StateByRoot service ZeroHash = (service, Ok (Some "genesis"%string)) /\
  others (fst (StateByRoot service ZeroHash)) = [] /\
  StateByRoot service ZeroHash <> loadColdStateByRoot service ZeroHash.
Proof.
  split; [vm_compute; reflexivity|].
  split; [simpl; lia|].
  split; [vm_compute; reflexivity|].
  split; [vm_compute; reflexivity|].
  vm_compute. intros [= ?].
Qed.

Lemma stateSummary_fallback_witness :
  stateSummary service rootA = (service, Ok (StateSummary.Build 3 rootA)) /\
  stateSummary service rootB = (service, Ok (StateSummary.Build 9 rootB)) /\
  (let s' := fst (stateSummary service rootC) in
   snd (stateSummary service rootC) = Ok (StateSummary.Build 42 rootC) /\
   DB.summaries (beaconDB service) !! rootC = None /\
   DB.summaries (beaconDB s') !! rootC = Some (StateSummary.Build 42 rootC) /\
   stateSummary s' rootC = (s', Ok (StateSummary.Build 42 rootC))).
Proof.
  split; [|split].
  - apply (proj1 (stateSummary_fallback service rootA)).
    vm_compute; reflexivity.
  - apply (proj1 (proj2 (stateSummary_fallback service rootB)));
      vm_compute; reflexivity.
  - assert (Hsave : exists db',
               DB.SaveStateSummary (beaconDB service)
                 (StateSummary.Build 42 rootC) = Ok db')
      by (eexists; vm_compute; reflexivity).
    destruct Hsave as [db' Hsave].
    pose proof
      (proj2 (proj2 (stateSummary_fallback service rootC)) blockC db'
         ltac:(vm_compute; reflexivity) ltac:(vm_compute; reflexivity)
         ltac:(vm_compute; reflexivity) Hsave)
      as (Hres & _ & _ & _ & _ & Hbefore & Hafter & Hagain & _).
    cbv zeta. repeat (split; [assumption|]). exact Hagain.
Defined.

Lemma unknown_summary_fails_witness :
  stateSummaryCache service !! rootD = None /\
  DB.StateSummary (beaconDB service) rootD = Ok None /\
  DB.HasBlock (beaconDB service) rootD = false /\
  rootD <> ZeroHash /\
  stateSummary service rootD = (service, Err errUnknownStateSummary) /\
  StateByRoot service rootD =
    (service, Err (Wrap errUnknownStateSummary "could not get state summary")).
Proof.
  assert (Hc : stateSummaryCache service !! rootD = None)
    by (vm_compute; reflexivity).
  assert (Hs : DB.StateSummary (beaconDB service) rootD = Ok None)
    by (vm_compute; reflexivity).
  assert (Hb : DB.HasBlock (beaconDB service) rootD = false)
    by (vm_compute; reflexivity).
  assert (Hr : rootD <> ZeroHash) by discriminate.
  destruct (unknown_summary_fails service rootD Hc Hs Hb) as [Hres Hby].
  repeat (split; [assumption|]).
  exact (proj1 (Hby Hr)).
Defined.

Lemma StateBySlot_tier_witness :
  (4 < splitSlotAndRoot.slot (splitInfo service) /\
   StateBySlot service 4 = loadColdStateBySlot service 4) /\
  (5 >= splitSlotAndRoot.slot (splitInfo service) /\
   StateBySlot service 5 = loadHotStateBySlot service 5).
Proof.
  assert (Hlt : 4 < splitSlotAndRoot.slot (splitInfo service))
    by (simpl; lia).
  assert (Hge : 5 >= splitSlotAndRoot.slot (splitInfo service))
    by (simpl; lia).
  split; (split; [assumption|]).
  - exact (proj1 (StateBySlot_tier service 4) Hlt).
  - exact (proj2 (StateBySlot_tier service 5) Hge).
Defined.

End StategenSpec.

(** * Properties of the encoder *)

Module EncoderSpec.
Import Encoder.

Section facts.
Context {Msg : Type} `{!Codec Msg}.
Implicit Types (e : SszNetworkEncoder) (w : Writer) (r : Reader) (h : Heap)
  (b : bytes) (m : Msg).

Lemma make_grows h n : make h n <> h.
Proof.
  unfold make. intros Heq.
  apply (f_equal (@length Z)) in Heq. simpl in Heq. lia.
Qed.

Lemma writeSnappyBuffer_appends w b :
  writeSnappyBuffer w b = (w ++ snappy_stream b, (len b, None)).
Proof. reflexivity. Qed.

(** What [Decode] makes of the output of [Encode], per compression
    setting. *)
Lemma Decode_Encode_plain e h m b :
  UseSnappyCompression e = false ->
  doEncode m = Ok b ->
  Decode e h (fst (Encode e [] (Some m))) = (h, doDecode b).
Proof.
  intros He Hb. unfold Decode, Encode. rewrite Hb, He. reflexivity.
Qed.

Lemma Decode_Encode_snappy e h m b :
  UseSnappyCompression e = true ->
  doEncode m = Ok b ->
  Decode e h (fst (Encode e [] (Some m))) =
    let n := len (snappy_stream b) in
    (make h n,
     match snappy_Read (snappy_stream b) n with
     | (_, Err err) => Err err
     | (_, Ok newObj) => doDecode newObj
     end).
Proof.
  intros He Hb. unfold Decode, Encode. rewrite Hb, He. simpl.
  destruct (snappy_Read _ _) as [r' [d|err]]; reflexivity.
Qed.

(** C7.  [DecodeWithMaxLength] with [maxSize] above [MaxChunkSize] = 1 << 20
    fails at once; with a declared length above [maxSize] it fails too; in
    both cases no buffer has been made.  A buffer is made, or a message
    decoded, only when the declared length is at most [maxSize] and
    [maxSize] at most [MaxChunkSize]; then the buffer has the length
    [MaxLength] gives for the declared length, one read fills it and what
    was read is decoded. *)
Theorem DecodeWithMaxLength_bounds e r h (maxSize : uint64) :
  MaxChunkSize = 1048576 /\
  (MaxChunkSize < maxSize ->
   DecodeWithMaxLength e r h maxSize
   = ((r, h), Err (errMaxSizeExceedsChunk maxSize MaxChunkSize))) /\
  (forall r1 msgLen,
      readVarint r = (r1, Ok msgLen) ->
      maxSize < msgLen ->
      exists r' err,
        DecodeWithMaxLength e r h maxSize = ((r', h), Err err) /\
        (maxSize <= MaxChunkSize ->
         r' = r1 /\ err = errSizeOfDecoded msgLen maxSize)) /\
  (forall r2 h2 res,
      DecodeWithMaxLength e r h maxSize = ((r2, h2), res) ->
      h2 <> h \/ (exists m, res = Ok m) ->
      exists r1 msgLen,
        readVarint r = (r1, Ok msgLen) /\
        msgLen <= maxSize /\ maxSize <= MaxChunkSize /\
        h2 = make h (MaxLength e (to_int msgLen))) /\
  (forall r1 msgLen,
      readVarint r = (r1, Ok msgLen) ->
      msgLen <= maxSize -> maxSize <= MaxChunkSize ->
      DecodeWithMaxLength e r h maxSize =
        let n := MaxLength e (to_int msgLen) in
        match (if UseSnappyCompression e
               then snappy_Read r1 n else Read r1 n) with
        | (r2, Err err) => ((r2, make h n), Err err)
        | (r2, Ok data) => ((r2, make h n), doDecode data)
        end).
Proof.
  split; [reflexivity|]. split; [|split; [|split]].
  - intros Hmax. unfold DecodeWithMaxLength.
    apply Z.ltb_lt in Hmax. rewrite Hmax. reflexivity.
  - intros r1 msgLen Hvar Hlen. unfold DecodeWithMaxLength.
    destruct (MaxChunkSize <? maxSize) eqn:Hmax.
    + do 2 eexists. split; [reflexivity|].
      apply Z.ltb_lt in Hmax. lia.
    + rewrite Hvar. apply Z.ltb_lt in Hlen. rewrite Hlen.
      do 2 eexists. split; [reflexivity|]. auto.
  - intros r2 h2 res. unfold DecodeWithMaxLength.
    destruct (MaxChunkSize <? maxSize) eqn:Hmax.
    { intros [= _ <- <-] [Hh|[m Hm]]; [contradiction|discriminate]. }
    destruct (readVarint r) as [r1 [msgLen|err]].
    2:{ intros [= _ <- <-] [Hh|[m Hm]]; [contradiction|discriminate]. }
    destruct (maxSize <? msgLen) eqn:Hlen.
    { intros [= _ <- <-] [Hh|[m Hm]]; [contradiction|discriminate]. }
    apply Z.ltb_ge in Hmax, Hlen. intros Hrun _.
    exists r1, msgLen. repeat (split; [first [reflexivity|assumption]|]).
    cbv zeta in Hrun.
    destruct (if UseSnappyCompression e then _ else _) as [r3 [d|err]];
      injection Hrun as _ <- _; reflexivity.
  - intros r1 msgLen Hvar Hlen Hmax. unfold DecodeWithMaxLength.
    apply Z.ltb_ge in Hmax, Hlen. rewrite Hmax, Hvar, Hlen. reflexivity.
Qed.

(** C8, amended.  For a non-nil message that serializes to [b],
    [EncodeWithLength] appends to the output the varint of the byte length
    of [b], the serialized message before any compression, and then the
    payload: [b] itself, or its snappy stream when compression is enabled.
    It returns the length of [b] and no error. *)
Theorem EncodeWithLength_frame e w m b :
  doEncode m = Ok b ->
  EncodeWithLength e w (Some m) =
    (w ++ EncodeVarint (len b)
       ++ (if UseSnappyCompression e then snappy_stream b else b),
     (len b, None)).
Proof.
  intros Hb. unfold EncodeWithLength. rewrite Hb. simpl.
  destruct (UseSnappyCompression e).
  - rewrite writeSnappyBuffer_appends, <- app_assoc. reflexivity.
  - unfold Write. rewrite <- app_assoc. reflexivity.
Qed.

(** C10.  On a nil message each of the four encoders returns a count of 0
    and no error, and the output is as it was. *)
Theorem Encode_nil e w (maxSize : uint64) :
  Encode e w None = (w, (0, None)) /\
  EncodeGossip e w None = (w, (0, None)) /\
  EncodeWithLength e w None = (w, (0, None)) /\
  EncodeWithMaxLength e w None maxSize = (w, (0, None)).
Proof. repeat split. Qed.

End facts.

(** ** The encoder at work on byte-list messages *)

#[local] Existing Instance Ref.bytes_codec.

Lemma DecodeWithMaxLength_bounds_witness :
  DecodeWithMaxLength Ref.snappy [3; 10; 20; 30] [] (MaxChunkSize + 1)
  = (([3; 10; 20; 30], []),
     Err (errMaxSizeExceedsChunk (MaxChunkSize + 1) MaxChunkSize)) /\
  (exists r' err,
      DecodeWithMaxLength Ref.plain [3; 10; 20; 30] [] 2
      = ((r', []), Err err) /\
      r' = [10; 20; 30] /\ err = errSizeOfDecoded 3 2) /\
  (exists r1 msgLen,
      readVarint [3; 10; 20; 30] = (r1, Ok msgLen) /\
      msgLen <= 16 /\ 16 <= MaxChunkSize /\
      [3] = make [] (MaxLength Ref.plain (to_int msgLen))) /\
  DecodeWithMaxLength Ref.plain [3; 10; 20; 30] [] 16
  = (([], [3]), Ok [10; 20; 30]).
Proof.
  split; [|split; [|split]].
  - apply (proj1 (proj2
             (@DecodeWithMaxLength_bounds _ Ref.bytes_codec Ref.snappy
                [3; 10; 20; 30] []
                (MaxChunkSize + 1)))).
    vm_compute; reflexivity.
  - destruct (proj1 (proj2 (proj2
                (@DecodeWithMaxLength_bounds _ Ref.bytes_codec Ref.plain
                   [3; 10; 20; 30] [] 2)))
                [10; 20; 30] 3 ltac:(vm_compute; reflexivity)
                ltac:(vm_compute; reflexivity))
      as (r' & err & Hrun & Hwhat).
    exists r', err. split; [exact Hrun|].
    apply Hwhat. vm_compute; discriminate.
  - apply (proj1 (proj2 (proj2 (proj2
             (@DecodeWithMaxLength_bounds _ Ref.bytes_codec Ref.plain
                [3; 10; 20; 30] [] 16))))
             [] [3] (Ok [10; 20; 30])).
    + vm_compute; reflexivity.
    + left; discriminate.
  - apply (proj2 (proj2 (proj2 (proj2
             (@DecodeWithMaxLength_bounds _ Ref.bytes_codec Ref.plain
                [3; 10; 20; 30] [] 16))))
             [10; 20; 30] 3).
    + vm_compute; reflexivity.
    + vm_compute; discriminate.
    + vm_compute; discriminate.
Defined.

Lemma EncodeWithLength_frame_witness :
  EncodeWithLength Ref.plain [] (Some [7])
  = ([1; 7], (1, None)) /\
  EncodeWithLength Ref.snappy [] (Some [7])
  = ([1] ++ SnappyRef.stream [7], (1, None)).
Proof.
  split.
  - rewrite (@EncodeWithLength_frame _ Ref.bytes_codec Ref.plain [] [7] [7]
               eq_refl).
    reflexivity.
  - rewrite (@EncodeWithLength_frame _ Ref.bytes_codec Ref.snappy [] [7] [7]
               eq_refl).
    reflexivity.
Defined.

(** The claim C8 as first stated, with the varint counting the bytes of the
    payload that follows, fails under compression: a message of one byte is
    written as the varint of 1 and a snappy stream of 19 bytes. *)
Lemma EncodeWithLength_snappy_prefix_is_not_payload_length :
  let payload := snappy_stream [7] in
  fst (EncodeWithLength Ref.snappy [] (Some [7])) = [1] ++ payload /\
  len payload = 19 /\
  EncodeVarint (len payload) = [19] /\
  fst (EncodeWithLength Ref.snappy [] (Some [7]))
  <> EncodeVarint (len payload) ++ payload.
Proof.
  cbv zeta. split; [vm_compute; reflexivity|].
  split; [vm_compute; reflexivity|].
  split; [vm_compute; reflexivity|].
  vm_compute. intros [= ?].
Qed.

(** C9 at a failing input.  With compression enabled, the message of 64 zero
    bytes is encoded as a stream of 24 bytes; [Decode] makes a buffer as long
    as that stream, its one read stores the first 24 of the 64 decoded bytes,
    and the message decoded is those 24 bytes, not the original.  Without
    compression the same message comes back. *)
Theorem Decode_Encode_snappy_truncates :
  let m := replicate 64 0 in
  let w := fst (Encode Ref.snappy [] (Some m)) in
  Encode Ref.snappy [] (Some m) = (snappy_stream m, (64, None)) /\
  len w = 24 /\
  snappy_Read w 64 = ([], Ok m) /\
  Decode Ref.snappy [] w = ([24], Ok (replicate 24 0)) /\
  snd (Decode Ref.snappy [] w) <> Ok m /\
  Decode Ref.plain [] (fst (Encode Ref.plain [] (Some m))) = ([], Ok m).
Proof.
  cbv zeta. repeat split; try (vm_compute; reflexivity).
  vm_compute. intros [= ?].
Qed.

End EncoderSpec.

(** * Further properties of the getters *)

Module StategenMore.
Import Stategen StategenSpec Resolution.

Section facts.
Context {BeaconState Other : Type} `{!Loaders BeaconState Other}.
Implicit Types (s : State BeaconState Other) (blockRoot : Bytes32).

Lemma StateSummary_none (db : DB.t BeaconState) blockRoot :
  DB.StateSummary db blockRoot = Ok None ->
  DB.fails db OpStateSummary = false /\ DB.summaries db !! blockRoot = None.
Proof.
  unfold DB.StateSummary. destruct (DB.fails db OpStateSummary); [discriminate|].
  intros [= Hnone]. auto.
Qed.

Lemma SaveStateSummary_ok (db db' : DB.t BeaconState) summary :
  DB.SaveStateSummary db summary = Ok db' ->
  db' = DB.Build (DB.states db)
          (<[StateSummary.Root summary := summary]> (DB.summaries db))
          (DB.blocks db) (DB.failing db).
Proof.
  unfold DB.SaveStateSummary. destruct (DB.fails db _); [discriminate|].
  intros [= <-]. reflexivity.
Qed.

Lemma with_beaconDB_same s : with_beaconDB s (beaconDB s) = s.
Proof. destruct s; reflexivity. Qed.

Lemma stateSummary_resolution s blockRoot :
  resolution s blockRoot (fst (stateSummary s blockRoot))
    (snd (stateSummary s blockRoot)).
Proof.
  unfold stateSummary, Cache.Has, Cache.Get.
  destruct (stateSummaryCache s !! blockRoot) as [summary|] eqn:Hc.
  - rewrite bool_decide_eq_true_2 by (eexists; reflexivity).
    simpl. apply res_cached. exact Hc.
  - rewrite bool_decide_eq_false_2 by (intros [x Hx]; discriminate).
    destruct (DB.StateSummary (beaconDB s) blockRoot)
      as [[summary|]|err] eqn:Hdb; simpl.
    + apply res_stored; assumption.
    + unfold recoverStateSummary.
      destruct (DB.HasBlock (beaconDB s) blockRoot) eqn:Hhas;
        [|simpl; apply res_unknown; assumption].
      destruct (DB.Block (beaconDB s) blockRoot) as [[b|]|err] eqn:Hb.
      * destruct (DB.SaveStateSummary _ _) as [db'|err] eqn:Hsave; simpl.
        -- eapply res_recovered; eassumption.
        -- apply res_recover_failed; try assumption.
           unfold DB.SaveStateSummary in Hsave.
           destruct (DB.fails _ _); [|discriminate].
           injection Hsave as <-. discriminate.
      * simpl. apply res_recover_failed; try assumption. discriminate.
      * simpl. apply res_recover_failed; try assumption.
        unfold DB.Block in Hb. destruct (DB.fails _ _); [|discriminate].
        injection Hb as <-. discriminate.
    + apply res_read_failed; assumption.
Qed.

Lemma stateSummary_resolves s blockRoot s' res :
  stateSummary s blockRoot = (s', res) -> resolution s blockRoot s' res.
Proof.
  intros Hrun. pose proof (stateSummary_resolution s blockRoot) as Hres.
  rewrite Hrun in Hres. exact Hres.
Qed.

(** X1.  Summary resolution changes nothing of the service but the stored
    summaries, and of those at most the one of the requested root, and only
    when the store had none for it: the cache, the split point, the stored
    states and blocks and every summary already stored are as before. *)
Theorem stateSummary_adds_at_most_one_summary s blockRoot s' res :
  stateSummary s blockRoot = (s', res) ->
  stateSummaryCache s' = stateSummaryCache s /\
  splitInfo s' = splitInfo s /\
  others s' = others s /\
  DB.states (beaconDB s') = DB.states (beaconDB s) /\
  DB.blocks (beaconDB s') = DB.blocks (beaconDB s) /\
  DB.failing (beaconDB s') = DB.failing (beaconDB s) /\
  forall root' : Bytes32,
    root' <> blockRoot \/ is_Some (DB.summaries (beaconDB s) !! root') ->
    DB.summaries (beaconDB s') !! root' = DB.summaries (beaconDB s) !! root'.
Proof.
  intros Hrun. apply stateSummary_resolves in Hrun.
  inversion Hrun; subst; try (repeat split; reflexivity).
  match goal with
  | Hsave : DB.SaveStateSummary _ _ = Ok _ |- _ =>
      apply SaveStateSummary_ok in Hsave; subst db'
  end.
  repeat (split; [reflexivity|]). simpl.
  match goal with
  | Hnone : DB.StateSummary _ _ = Ok None |- _ =>
      apply StateSummary_none in Hnone; destruct Hnone as [_ Hnone]
  end.
  intros root' [Hne|[x Hx]].
  - apply lookup_insert_ne. congruence.
  - apply lookup_insert_ne. intros ->. congruence.
Qed.

(** X2.  When summary resolution fails, the service is left as it was, and
    [StateByRoot] on a root other than the zero hash returns the same error,
    wrapped, with the service as it was: no loader has run on it. *)
Theorem stateSummary_failure_changes_nothing s blockRoot s' err :
  stateSummary s blockRoot = (s', Err err) ->
  s' = s /\
  (blockRoot <> ZeroHash ->
   StateByRoot s blockRoot
   = (s, Err (Wrap err "could not get state summary"))).
Proof.
  intros Hrun. assert (Hs : s' = s).
  { apply stateSummary_resolves in Hrun. inversion Hrun; reflexivity. }
  subst s'. split; [reflexivity|]. intros Hroot.
  unfold StateByRoot. destruct (decide (blockRoot = ZeroHash)); [contradiction|].
  rewrite Hrun. reflexivity.
Qed.

(** X3.  A summary once resolved stays resolved: on the service that
    resolution leaves, resolving the same root again gives the same summary
    and changes nothing, and [StateSummaryExists] answers [true]. *)
Theorem stateSummary_stable s blockRoot s' summary :
  stateSummary s blockRoot = (s', Ok summary) ->
  stateSummary s' blockRoot = (s', Ok summary) /\
  StateSummaryExists s' blockRoot = (s', true).
Proof.
  intros Hrun. pose proof Hrun as Hres. apply stateSummary_resolves in Hres.
  unfold StateSummaryExists, DB.HasStateSummary, Cache.Has.
  inversion Hres; subst.
  - split; [exact Hrun|]. f_equal.
    rewrite (bool_decide_eq_true_2 (is_Some (stateSummaryCache s' !! _)))
      by (eexists; eassumption).
    apply orb_true_r.
  - split; [exact Hrun|]. f_equal.
    match goal with
    | Hdb : DB.StateSummary _ _ = Ok (Some _) |- _ =>
        unfold DB.StateSummary in Hdb;
        destruct (DB.fails _ _); [discriminate|]; injection Hdb as Hdb
    end.
    rewrite bool_decide_eq_true_2 by (eexists; eassumption). reflexivity.
  - match goal with
    | Hsave : DB.SaveStateSummary _ _ = Ok _ |- _ =>
        apply SaveStateSummary_ok in Hsave; subst db'
    end.
    match goal with
    | Hnone : DB.StateSummary _ _ = Ok None |- _ =>
        apply StateSummary_none in Hnone; destruct Hnone as [Hfails _]
    end.
    split.
    + apply stateSummary_stored; [assumption|].
      unfold DB.StateSummary, DB.fails in *. simpl. rewrite Hfails.
      rewrite lookup_insert_eq. reflexivity.
    + f_equal. simpl. rewrite lookup_insert_eq.
      rewrite bool_decide_eq_true_2 by (eexists; reflexivity). reflexivity.
Qed.

(** X4.  When [StateSummaryExists] answers [true] and the store can be read,
    resolution succeeds and changes nothing; it returns the cached summary
    when the cache has one, whatever the store holds for the root, and the
    stored summary otherwise. *)
Theorem existing_summary_resolves s blockRoot :
  snd (StateSummaryExists s blockRoot) = true ->
  DB.fails (beaconDB s) OpStateSummary = false ->
  exists summary,
    stateSummary s blockRoot = (s, Ok summary) /\
    (stateSummaryCache s !! blockRoot = Some summary \/
     stateSummaryCache s !! blockRoot = None /\
     DB.summaries (beaconDB s) !! blockRoot = Some summary).
Proof.
  unfold StateSummaryExists, DB.HasStateSummary, Cache.Has. simpl.
  intros Hex Hfails.
  destruct (stateSummaryCache s !! blockRoot) as [summary|] eqn:Hc.
  - exists summary. split; [|left; reflexivity].
    apply stateSummary_hit. exact Hc.
  - rewrite (bool_decide_eq_false_2 (is_Some None)) in Hex
      by (intros [x Hx]; discriminate).
    rewrite orb_false_r in Hex. apply bool_decide_eq_true in Hex.
    destruct Hex as [summary Hs]. exists summary.
    split; [|right; split; [reflexivity|exact Hs]].
    apply stateSummary_stored; [exact Hc|].
    unfold DB.StateSummary. rewrite Hfails, Hs. reflexivity.
Qed.

(** X5.  A root other than the zero hash that is known by its stored block
    only is routed by the slot of that block: below the split slot to the
    cold loader, otherwise to the hot loader.  The service the loader
    receives is the one summary resolution leaves: its store is the one
    [SaveStateSummary] gave and holds the derived summary under the root,
    which the store of the service before did not. *)
Theorem StateByRoot_routes_by_block_slot s blockRoot b db' :
  blockRoot <> ZeroHash ->
  stateSummaryCache s !! blockRoot = None ->
  DB.StateSummary (beaconDB s) blockRoot = Ok None ->
  DB.Block (beaconDB s) blockRoot = Ok (Some b) ->
  DB.SaveStateSummary (beaconDB s)
    (StateSummary.Build (BeaconBlock.Slot (SignedBeaconBlock.Block b))
       blockRoot) = Ok db' ->
  let s' := fst (stateSummary s blockRoot) in
  StateByRoot s blockRoot =
    (if BeaconBlock.Slot (SignedBeaconBlock.Block b)
        <? splitSlotAndRoot.slot (splitInfo s)
     then loadColdStateByRoot s' blockRoot
     else loadHotStateByRoot s' blockRoot) /\
  beaconDB s' = db' /\
  DB.summaries (beaconDB s) !! blockRoot = None /\
  DB.summaries (beaconDB s') !! blockRoot
  = Some (StateSummary.Build (BeaconBlock.Slot (SignedBeaconBlock.Block b))
            blockRoot).
Proof.
  intros Hroot Hc Hdb Hb Hsave s'.
  assert (Hrun : stateSummary s blockRoot
                 = (Build_State db' (stateSummaryCache s) (splitInfo s)
                      (others s),
                    Ok (StateSummary.Build
                          (BeaconBlock.Slot (SignedBeaconBlock.Block b))
                          blockRoot))).
  { rewrite (stateSummary_recover _ _ Hc Hdb). unfold recoverStateSummary.
    rewrite (Block_found _ _ _ Hb), Hb, Hsave. reflexivity. }
  subst s'. split; [|split; [|split]].
  - unfold StateByRoot.
    destruct (decide (blockRoot = ZeroHash)); [contradiction|].
    rewrite Hrun. reflexivity.
  - rewrite Hrun. reflexivity.
  - apply StateSummary_none in Hdb. apply Hdb.
  - rewrite Hrun. apply SaveStateSummary_ok in Hsave. subst db'. simpl.
    apply lookup_insert_eq.
Qed.

(** X6.  Resolution fails with [errUnknownStateSummary] exactly when the
    cache has no summary of the root, the store reports none and holds no
    block of it; a store that fails gives another error. *)
Theorem errUnknownStateSummary_iff s blockRoot :
  snd (stateSummary s blockRoot) = Err errUnknownStateSummary <->
  stateSummaryCache s !! blockRoot = None /\
  DB.StateSummary (beaconDB s) blockRoot = Ok None /\
  DB.HasBlock (beaconDB s) blockRoot = false.
Proof.
  split.
  - intros Herr. pose proof (stateSummary_resolution s blockRoot) as Hres.
    rewrite Herr in Hres. inversion Hres; subst; auto.
    + match goal with
      | Hdb : DB.StateSummary _ _ = Err _ |- _ =>
          unfold DB.StateSummary in Hdb;
          destruct (DB.fails _ _); discriminate
      end.
    + congruence.
  - intros (Hc & Hdb & Hblock).
    rewrite (stateSummary_recover _ _ Hc Hdb). unfold recoverStateSummary.
    rewrite Hblock. reflexivity.
Qed.

End facts.

(** ** Runs on the concrete services *)

Import Fixtures MoreFixtures.
#[local] Existing Instance probes.

Lemma stateSummary_adds_at_most_one_summary_witness :
  let s' := fst (stateSummary service rootC) in
  snd (stateSummary service rootC) = Ok (StateSummary.Build 42 rootC) /\
  stateSummaryCache s' = stateSummaryCache service /\
  DB.blocks (beaconDB s') = DB.blocks (beaconDB service) /\
  DB.summaries (beaconDB s') !! rootB = Some (StateSummary.Build 9 rootB) /\
  DB.summaries (beaconDB s') !! rootD = None.
Proof.
  cbv zeta.
  destruct (stateSummary_adds_at_most_one_summary service rootC _ _
              (surjective_pairing (stateSummary service rootC)))
    as (Hcache & _ & _ & _ & Hblocks & _ & Hsum).
  split; [vm_compute; reflexivity|].
  split; [exact Hcache|]. split; [exact Hblocks|]. split.
  - rewrite (Hsum rootB) by (left; discriminate). vm_compute; reflexivity.
  - rewrite (Hsum rootD) by (left; discriminate). vm_compute; reflexivity.
Defined.

Lemma stateSummary_failure_changes_nothing_witness :
  stateSummary service_read_only rootC
  = (service_read_only, Err (errStoreFailure OpSaveStateSummary)) /\
  rootC <> ZeroHash /\
  StateByRoot service_read_only rootC
  = (service_read_only,
     Err (Wrap (errStoreFailure OpSaveStateSummary)
            "could not get state summary")).
Proof.
  assert (Hrun : stateSummary service_read_only rootC
                 = (service_read_only,
                    Err (errStoreFailure OpSaveStateSummary)))
    by (vm_compute; reflexivity).
  assert (Hroot : rootC <> ZeroHash) by discriminate.
  split; [exact Hrun|]. split; [exact Hroot|].
  exact (proj2 (stateSummary_failure_changes_nothing
                  service_read_only rootC _ _ Hrun) Hroot).
Defined.

Lemma stateSummary_stable_witness :
  let s' := fst (stateSummary service rootC) in
  stateSummary service rootC = (s', Ok (StateSummary.Build 42 rootC)) /\
  s' <> service /\
  stateSummary s' rootC = (s', Ok (StateSummary.Build 42 rootC)) /\
  StateSummaryExists s' rootC = (s', true) /\
  StateSummaryExists service rootC = (service, false).
Proof.
  cbv zeta.
  assert (Hrun : stateSummary service rootC
                 = (fst (stateSummary service rootC),
                    Ok (StateSummary.Build 42 rootC)))
    by (vm_compute; reflexivity).
  split; [exact Hrun|].
  split; [vm_compute; intros [= ?]|].
  destruct (stateSummary_stable service rootC _ _ Hrun) as [Hagain Hex].
  split; [exact Hagain|]. split; [exact Hex|].
  vm_compute; reflexivity.
Defined.

Lemma existing_summary_resolves_witness :
  DB.summaries (beaconDB service_shadowed) !! rootB
  = Some (StateSummary.Build 9 rootB) /\
  stateSummary service_shadowed rootB
  = (service_shadowed, Ok (StateSummary.Build 2 rootB)) /\
  exists summary,
    stateSummary service_shadowed rootB = (service_shadowed, Ok summary) /\
    (stateSummaryCache service_shadowed !! rootB = Some summary \/
     stateSummaryCache service_shadowed !! rootB = None /\
     DB.summaries (beaconDB service_shadowed) !! rootB = Some summary).
Proof.
  split; [vm_compute; reflexivity|].
  split; [vm_compute; reflexivity|].
  apply (existing_summary_resolves service_shadowed rootB);
    vm_compute; reflexivity.
Defined.

Lemma StateByRoot_routes_by_block_slot_witness :
  let s' := fst (stateSummary service rootC) in
  StateByRoot service rootC = loadHotStateByRoot s' rootC /\
  DB.summaries (beaconDB service) !! rootC = None /\
  DB.summaries (beaconDB s') !! rootC = Some (StateSummary.Build 42 rootC).
Proof.
  assert (Hsave : exists db',
             DB.SaveStateSummary (beaconDB service)
               (StateSummary.Build 42 rootC) = Ok db')
    by (eexists; vm_compute; reflexivity).
  destruct Hsave as [db' Hsave].
  pose proof
    (StateByRoot_routes_by_block_slot service rootC blockC db'
       ltac:(discriminate) ltac:(vm_compute; reflexivity)
       ltac:(vm_compute; reflexivity) ltac:(vm_compute; reflexivity) Hsave)
    as (Hroute & _ & Hbefore & Hafter).
  cbv zeta. split; [exact Hroute|]. split; assumption.
Defined.

End StategenMore.

(** * Further properties of the encoder *)

Module EncoderMore.
Import Encoder EncoderSpec.

Section facts.
Context {Msg : Type} `{!Codec Msg}.
Implicit Types (e : SszNetworkEncoder) (w : Writer) (r : Reader) (h : Heap)
  (b : bytes) (m : Msg).

Lemma len_nonneg b : 0 <= len b.
Proof. unfold len. lia. Qed.

Lemma len_app b b' : len (b ++ b') = len b + len b'.
Proof. unfold len. rewrite length_app. lia. Qed.

Lemma to_int_small x : 0 <= x <= MaxChunkSize -> to_int x = x.
Proof.
  intros Hx. unfold to_int, to_uint64. change MaxChunkSize with 1048576 in Hx.
  rewrite Z.mod_small by lia.
  destruct (x <? 2 ^ 63) eqn:Hlt; [reflexivity|].
  apply Z.ltb_ge in Hlt. lia.
Qed.

(** A read from a [bytes.Buffer] into a buffer as long as [b] takes exactly
    [b]. *)
Lemma Buffer_Read_exact b rest :
  Buffer_Read (b ++ rest) (len b) = (rest, Ok b).
Proof.
  unfold Buffer_Read, len. destruct b as [|x b]; [reflexivity|].
  destruct (Z.of_nat (length (x :: b)) <=? 0) eqn:Hle.
  { apply Z.leb_le in Hle. simpl length in Hle. lia. }
  rewrite Nat2Z.id. cbn [app].
  replace (x :: b ++ rest) with ((x :: b) ++ rest) by reflexivity.
  rewrite drop_app_length, take_app_length. reflexivity.
Qed.

(** X7.  When the message cannot be serialized, each of the four encoders
    returns a count of 0 with the serializer's error and leaves the output
    as it was. *)
Theorem encoders_fail_without_writing e w m err (maxSize : uint64) :
  doEncode m = Err err ->
  Encode e w (Some m) = (w, (0, Some err)) /\
  EncodeGossip e w (Some m) = (w, (0, Some err)) /\
  EncodeWithLength e w (Some m) = (w, (0, Some err)) /\
  EncodeWithMaxLength e w (Some m) maxSize = (w, (0, Some err)).
Proof.
  intros Hm. unfold Encode, EncodeGossip, EncodeWithLength,
    EncodeWithMaxLength. rewrite Hm. repeat split.
Qed.

(** X8.  [EncodeWithMaxLength] writes nothing and returns a size error when
    the serialized message is longer than [maxSize]; otherwise it does what
    [EncodeWithLength] does, whatever [maxSize] is. *)
Theorem EncodeWithMaxLength_limit e w m b (maxSize : uint64) :
  doEncode m = Ok b ->
  (maxSize < len b ->
   EncodeWithMaxLength e w (Some m) maxSize
   = (w, (0, Some (errSizeOfEncoded (len b) maxSize)))) /\
  (len b <= maxSize ->
   EncodeWithMaxLength e w (Some m) maxSize = EncodeWithLength e w (Some m)).
Proof.
  intros Hb. unfold EncodeWithMaxLength, EncodeWithLength. rewrite Hb.
  split; intros Hlen.
  - apply Z.ltb_lt in Hlen. rewrite Hlen. reflexivity.
  - apply Z.ltb_ge in Hlen. rewrite Hlen. reflexivity.
Qed.

(** X9.  Gossip round trip.  For a message that serializes, [EncodeGossip]
    appends one payload to the output and returns its length, and
    [DecodeGossip] of that payload gives the message back, provided ssz
    unmarshals what it marshalled and, under compression, the snappy block
    decodes to what was encoded. *)
Theorem DecodeGossip_EncodeGossip e w m b :
  doEncode m = Ok b ->
  doDecode b = Ok m ->
  (UseSnappyCompression e = true -> snappy_Decode (snappy_Encode b) = Ok b) ->
  exists payload,
    EncodeGossip e w (Some m) = (w ++ payload, (len payload, None)) /\
    DecodeGossip e payload = Ok m.
Proof.
  intros Hb Hm Hsnappy. unfold EncodeGossip, DecodeGossip. rewrite Hb.
  destruct (UseSnappyCompression e).
  - exists (snappy_Encode b). split; [reflexivity|].
    rewrite Hsnappy by reflexivity. exact Hm.
  - exists b. split; [reflexivity|exact Hm].
Qed.

(** X10.  Framed round trip without compression.  A message whose
    serialization fits [maxSize <= MaxChunkSize] is written as one frame by
    [EncodeWithMaxLength] (and as the same frame by [EncodeWithLength]);
    from a stream that starts with that frame, [DecodeWithMaxLength] and
    [DecodeWithLength] return the message, make one buffer of the message's
    length and leave exactly what follows the frame, provided [readVarint]
    reads the prefix back, the one [Read] of the stream delivers the whole
    payload, and ssz unmarshals what it marshalled.  The decoder reads once:
    a stream that delivers the payload in pieces is outside this statement. *)
Theorem framed_round_trip_plain e m b rest h (maxSize : uint64) :
  UseSnappyCompression e = false ->
  doEncode m = Ok b ->
  doDecode b = Ok m ->
  len b <= maxSize ->
  maxSize <= MaxChunkSize ->
  readVarint (EncodeVarint (len b) ++ b ++ rest) = (b ++ rest, Ok (len b)) ->
  Read (b ++ rest) (len b) = (rest, Ok b) ->
  exists frame,
    frame = EncodeVarint (len b) ++ b /\
    EncodeWithMaxLength e [] (Some m) maxSize = (frame, (len b, None)) /\
    EncodeWithLength e [] (Some m) = (frame, (len b, None)) /\
    DecodeWithMaxLength e (frame ++ rest) h maxSize
    = ((rest, make h (len b)), Ok m) /\
    DecodeWithLength e (frame ++ rest) h = ((rest, make h (len b)), Ok m).
Proof.
  intros He Hb Hm Hfit Hmax Hvar Hread. exists (EncodeVarint (len b) ++ b).
  pose proof (len_nonneg b) as Hpos.
  assert (Hdec : forall limit, len b <= limit -> limit <= MaxChunkSize ->
            DecodeWithMaxLength e ((EncodeVarint (len b) ++ b) ++ rest) h limit
            = ((rest, make h (len b)), Ok m)).
  { intros limit Hl1 Hl2. unfold DecodeWithMaxLength, MaxLength.
    apply Z.ltb_ge in Hl2 as Hl2'. rewrite Hl2'.
    rewrite <- app_assoc, Hvar.
    apply Z.ltb_ge in Hl1 as Hl1'. rewrite Hl1', He.
    rewrite to_int_small by lia. cbv zeta.
    rewrite Hread. rewrite Hm. reflexivity. }
  split; [reflexivity|]. repeat split.
  - unfold EncodeWithMaxLength. rewrite Hb.
    apply Z.ltb_ge in Hfit. rewrite Hfit, He. reflexivity.
  - unfold EncodeWithLength. rewrite Hb, He. reflexivity.
  - apply Hdec; assumption.
  - unfold DecodeWithLength. apply Hdec; lia.
Qed.




(** X14.  Round trip without compression.  [Encode] writes the
    serialization and returns its length, and [Decode] of what was written
    gives the message back without making a buffer, provided ssz unmarshals
    what it marshalled. *)
Theorem Decode_Encode_round_trip_plain e h m b :
  UseSnappyCompression e = false ->
  doEncode m = Ok b ->
  doDecode b = Ok m ->
  Encode e [] (Some m) = (b, (len b, None)) /\
  Decode e h (fst (Encode e [] (Some m))) = (h, Ok m).
Proof.
  intros He Hb Hm. unfold Encode, Decode. rewrite Hb, He. simpl.
  rewrite Hm. split; reflexivity.
Qed.

(** X15.  With compression, [Decode] of what [Encode] wrote makes a buffer
    as long as the snappy stream and hands to the deserializer at most that
    many leading bytes of the serialization.  When the one read of the
    snappy reader fills the buffer from the decoded serialization, the
    message comes back if the stream is at least as long as the
    serialization; if it is shorter, the deserializer gets a strict
    prefix. *)
Theorem Decode_Encode_snappy_prefix e h m b r' :
  UseSnappyCompression e = true ->
  doEncode m = Ok b ->
  let n := len (snappy_stream b) in
  snappy_Read (snappy_stream b) n = (r', Ok (take (Z.to_nat n) b)) ->
  Decode e h (fst (Encode e [] (Some m)))
  = (make h n, doDecode (take (Z.to_nat n) b)) /\
  (len b <= n -> take (Z.to_nat n) b = b) /\
  (n < len b -> len (take (Z.to_nat n) b) = n /\ take (Z.to_nat n) b <> b).
Proof.
  intros He Hb n Hread.
  assert (Hn : 0 <= n) by apply len_nonneg.
  split; [|split].
  - rewrite (Decode_Encode_snappy e h m b He Hb). cbv zeta.
    fold n. rewrite Hread. reflexivity.
  - intros Hlen. apply take_ge. unfold len in Hlen. lia.
  - intros Hlen.
    assert (Hl : len (take (Z.to_nat n) b) = n).
    { unfold len in *. rewrite length_take. lia. }
    split; [exact Hl|]. intros Heq. rewrite Heq in Hl. lia.
Qed.

End facts.

(** ** Runs on byte-list messages *)

Import MoreFixtures.

Lemma encoders_fail_without_writing_witness :
  @doEncode _ limited_codec [1; 2; 3; 4; 5]
  = Err (errOther "ssz: list longer than its limit") /\
  @Encode _ limited_codec Ref.snappy [9] (Some [1; 2; 3; 4; 5])
  = ([9], (0, Some (errOther "ssz: list longer than its limit"))) /\
  @EncodeWithLength _ limited_codec Ref.plain [9] (Some [1; 2; 3; 4; 5])
  = ([9], (0, Some (errOther "ssz: list longer than its limit"))).
Proof.
  assert (Hm : @doEncode _ limited_codec [1; 2; 3; 4; 5]
               = Err (errOther "ssz: list longer than its limit"))
    by reflexivity.
  split; [exact Hm|]. split.
  - exact (proj1 (@encoders_fail_without_writing _ limited_codec
                    Ref.snappy [9] _ _ 0 Hm)).
  - exact (proj1 (proj2 (proj2
             (@encoders_fail_without_writing _ limited_codec
                Ref.plain [9] _ _ 0 Hm)))).
Defined.

Lemma EncodeWithMaxLength_limit_witness :
  @EncodeWithMaxLength _ Ref.bytes_codec Ref.plain [] (Some [1; 2; 3]) 2
  = ([], (0, Some (errSizeOfEncoded 3 2))) /\
  @EncodeWithMaxLength _ Ref.bytes_codec Ref.plain [] (Some [1; 2; 3]) 3
  = @EncodeWithLength _ Ref.bytes_codec Ref.plain [] (Some [1; 2; 3]).
Proof.
  pose proof (@EncodeWithMaxLength_limit _ Ref.bytes_codec Ref.plain []
                [1; 2; 3] [1; 2; 3]) as Hlimit.
  split.
  - apply (proj1 (Hlimit 2 eq_refl)). vm_compute; reflexivity.
  - apply (proj2 (Hlimit 3 eq_refl)). vm_compute; discriminate.
Defined.

Lemma DecodeGossip_EncodeGossip_witness :
  let m := replicate 20 5 ++ [1; 2; 3] in
  (exists payload,
      @EncodeGossip _ Ref.bytes_codec Ref.snappy [] (Some m)
      = ([] ++ payload, (len payload, None)) /\
      @DecodeGossip _ Ref.bytes_codec Ref.snappy payload = Ok m) /\
  (exists payload,
      @EncodeGossip _ Ref.bytes_codec Ref.plain [] (Some m)
      = ([] ++ payload, (len payload, None)) /\
      @DecodeGossip _ Ref.bytes_codec Ref.plain payload = Ok m).
Proof.
  cbv zeta. split.
  - apply (@DecodeGossip_EncodeGossip _ Ref.bytes_codec Ref.snappy []
             (replicate 20 5 ++ [1; 2; 3]) (replicate 20 5 ++ [1; 2; 3]));
      try reflexivity; try (intros _; vm_compute; reflexivity).
  - apply (@DecodeGossip_EncodeGossip _ Ref.bytes_codec Ref.plain []
             (replicate 20 5 ++ [1; 2; 3]) (replicate 20 5 ++ [1; 2; 3]));
      try reflexivity; try (intros Hsnappy; discriminate Hsnappy).
Defined.

Lemma framed_round_trip_plain_witness :
  @Read _ Ref.bytes_codec ([10; 20; 30] ++ [99]) (len [10; 20; 30])
  = ([99], Ok [10; 20; 30]) /\
  exists frame,
    frame = EncodeVarint (len [10; 20; 30]) ++ [10; 20; 30] /\
    @EncodeWithMaxLength _ Ref.bytes_codec Ref.plain [] (Some [10; 20; 30]) 16
    = (frame, (len [10; 20; 30], None)) /\
    @EncodeWithLength _ Ref.bytes_codec Ref.plain [] (Some [10; 20; 30])
    = (frame, (len [10; 20; 30], None)) /\
    @DecodeWithMaxLength _ Ref.bytes_codec Ref.plain (frame ++ [99]) [] 16
    = (([99], make [] (len [10; 20; 30])), Ok [10; 20; 30]) /\
    @DecodeWithLength _ Ref.bytes_codec Ref.plain (frame ++ [99]) []
    = (([99], make [] (len [10; 20; 30])), Ok [10; 20; 30]).
Proof.
  split; [apply (Buffer_Read_exact [10; 20; 30] [99])|].
  apply (@framed_round_trip_plain _ Ref.bytes_codec Ref.plain
           [10; 20; 30] [10; 20; 30] [99] [] 16);
    try reflexivity; vm_compute; discriminate.
Defined.




Lemma Decode_Encode_round_trip_plain_witness :
  @Encode _ Ref.bytes_codec Ref.plain [] (Some [10; 20; 30])
  = ([10; 20; 30], (len [10; 20; 30], None)) /\
  @Decode _ Ref.bytes_codec Ref.plain []
    (fst (@Encode _ Ref.bytes_codec Ref.plain [] (Some [10; 20; 30])))
  = ([], Ok [10; 20; 30]).
Proof.
  apply (@Decode_Encode_round_trip_plain _ Ref.bytes_codec Ref.plain []
           [10; 20; 30] [10; 20; 30]); reflexivity.
Defined.

Lemma Decode_Encode_snappy_prefix_witness :
  (let m := replicate 64 0 in
   let n := len (SnappyRef.stream m) in
   n = 24 /\
   @Decode _ Ref.bytes_codec Ref.snappy []
     (fst (@Encode _ Ref.bytes_codec Ref.snappy [] (Some m)))
   = (make [] n, @doDecode _ Ref.bytes_codec (take (Z.to_nat n) m)) /\
   take (Z.to_nat n) m <> m) /\
  (let m := [7] in
   let n := len (SnappyRef.stream m) in
   n = 19 /\
   @Decode _ Ref.bytes_codec Ref.snappy []
     (fst (@Encode _ Ref.bytes_codec Ref.snappy [] (Some m)))
   = (make [] n, @doDecode _ Ref.bytes_codec (take (Z.to_nat n) m)) /\
   take (Z.to_nat n) m = m).
Proof.
  cbv zeta. split.
  - destruct (@Decode_Encode_snappy_prefix _ Ref.bytes_codec Ref.snappy []
                (replicate 64 0) (replicate 64 0) [] eq_refl eq_refl
                ltac:(vm_compute; reflexivity))
      as (Hrun & _ & Hshort).
    split; [vm_compute; reflexivity|]. split; [exact Hrun|].
    apply Hshort. vm_compute; reflexivity.
  - destruct (@Decode_Encode_snappy_prefix _ Ref.bytes_codec Ref.snappy []
                [7] [7] [] eq_refl eq_refl ltac:(vm_compute; reflexivity))
      as (Hrun & Hlong & _).
    split; [vm_compute; reflexivity|]. split; [exact Hrun|].
    apply Hlong. vm_compute; discriminate.
Defined.

End EncoderMore.
